(** * The ignore-rule error matcher of erpc ([common/error_matcher.go])

    A shallow embedding of [ErrorMatcher]: the rule record, the error values
    it inspects, [matchString], [matchesPattern], [ShouldIgnoreError],
    [NewErrorMatcher] and [MergePatterns], followed by the properties the
    specification states about them.

    Conventions.
    - A Go [string] is a Rocq [string]: a sequence of bytes, compared
      byte by byte.
    - A Go slice is [slice A = option (list A)]: [None] is the nil slice.
    - A Go pointer that the code tests against nil is an [option].  The
      elements of [[]*IgnoreErrorConfig] are read but never tested nor
      mutated; a rule pointer is identified with the record it points to.
    - The [regexp] package of the Go standard library is an interface
      ([RegexpPackage]); [WildcardMatch], a helper of package [common]
      declared outside [error_matcher.go], is a parameter of the matcher. *)

From Stdlib Require Import String Ascii List Bool Arith Lia Permutation.
Import ListNotations.

Open Scope string_scope.
Open Scope bool_scope.

(** ** Go values *)

Module Go.

Definition slice (A : Type) : Type := option (list A).

Definition elems {A : Type} (s : slice A) : list A :=
match s with
| None => []
| Some l => l
end.

Definition len {A : Type} (s : slice A) : nat := List.length (elems s).

(** [append(s, t...)]: the result is nil only when both are. *)
Definition append {A : Type} (s t : slice A) : slice A :=
match s, t with
| None, None => None
| _, _ => Some (elems s ++ elems t)%list
end.

(** [make([]T, 0, n)]: an empty slice that is not nil. *)
Definition make {A : Type} : slice A := Some [].

End Go.

Import Go (slice, elems, len).

(** ** [strings.Contains] *)

Module strings.

Fixpoint HasPrefix (s prefix : string) {struct prefix} : bool :=
  match prefix with
  | EmptyString => true
  | String p prefix' =>
      match s with
      | EmptyString => false
      | String c s' => Ascii.eqb c p && HasPrefix s' prefix'
      end
  end.

(** [Contains s substr] reports whether [substr] is within [s]. *)
Fixpoint Contains (s substr : string) : bool :=
  HasPrefix s substr
  || match s with
     | EmptyString => false
     | String _ s' => Contains s' substr
     end.

End strings.

(** ** The [regexp] package, as the matcher uses it *)

Class RegexpPackage : Type := {
  Regexp : Type;
  (** [regexp.Compile]: [None] stands for a non-nil error. *)
  Compile : string -> option Regexp;
  (** The method [MatchString] of a compiled [Regexp]. *)
  MatchString : Regexp -> string -> bool
}.

(** The documented contract of [MatchString]: it reports whether the string
    contains any match of the expression.  [matchAt re pre mid post] says
    that the region [mid] of [pre ++ mid ++ post] is a match of [re]; the
    text around the region is there for the assertions an expression may
    make about it (line ends, word boundaries). *)
Definition reports_any_match (RE : RegexpPackage)
    (matchAt : Regexp -> string -> string -> string -> Prop) : Prop :=
  forall (re : Regexp) (s : string),
    MatchString re s = true <->
    exists pre mid post, s = pre ++ mid ++ post /\ matchAt re pre mid post.

(** ** Errors *)

(** [BaseError]: the fields the matcher and its tests touch. *)
Record BaseError : Type := {
  Code : string;
  Message : string
}.

(** The dynamic types an [error] interface value can have, as far as
    [ShouldIgnoreError] can tell them apart.
    - [errorString s]: [errors.New(s)], or [fmt.Errorf] without [%w];
    - [wrapError msg err]: [fmt.Errorf] with one [%w] verb, [msg] being the
      formatted text and [err] the cause returned by [Unwrap];
    - [standardError text base]: a value whose type implements
      [StandardError]; [text] is what its [Error()] renders and [base] what
      its [Base()] returns (nil is [None]).
    Methods are total: an interface value that holds a nil pointer whose
    methods would fail is not among these. *)
Inductive error : Type :=
| errorString (s : string)
| wrapError (msg : string) (err : error)
| standardError (text : string) (base : option BaseError).

(** [err.Error()] *)
Definition Error (err : error) : string :=
  match err with
  | errorString s => s
  | wrapError msg _ => msg
  | standardError text _ => text
  end.

(** [stdErr, ok := err.(StandardError)] followed by [stdErr.Base()]:
    [None] when the assertion fails. *)
Definition asStandardError (err : error) : option (option BaseError) :=
  match err with
  | standardError _ base => Some base
  | _ => None
  end.

(** [fmt.Errorf(prefix + "%w", err)] *)
Definition Errorf_w (prefix : string) (err : error) : error :=
  wrapError (prefix ++ Error err) err.

(** ** Rules *)

Definition ErrorMatchType : Type := string.

(** Modelled from the spec: the four constants of [ErrorMatchType], which
    [error_matcher.go] uses and does not declare; their values are the
    recognised match-type strings of the configuration. *)
Definition ErrorMatchTypeExact : ErrorMatchType := "exact".
Definition ErrorMatchTypeSubstring : ErrorMatchType := "substring".
Definition ErrorMatchTypeWildcard : ErrorMatchType := "wildcard".
Definition ErrorMatchTypeRegex : ErrorMatchType := "regex".

(** [IgnoreErrorConfig]; the field names are prefixed because [Code] and
    [Message] are taken by [BaseError]. *)
Record IgnoreErrorConfig : Type := {
  ruleCode : string;
  ruleMessage : string;
  ruleMatchType : ErrorMatchType
}.

Record ErrorMatcher : Type := {
  patterns : slice IgnoreErrorConfig
}.

(** ** The matcher *)

Section Matcher.

Context {RE : RegexpPackage}.

(** [WildcardMatch(pattern, value) (bool, error)] of package [common]. *)
Variable WildcardMatch : string -> string -> bool * option error.

Definition matchString (target pattern : string) (matchType : ErrorMatchType)
  : bool :=
  if (target =? "") || (pattern =? "") then false
  else if matchType =? ErrorMatchTypeExact then
    target =? pattern
  else if matchType =? ErrorMatchTypeSubstring then
    strings.Contains target pattern
  else if matchType =? ErrorMatchTypeWildcard then
    let '(matched, err) := WildcardMatch pattern target in
    match err with
    | Some _ => strings.Contains target pattern
    | None => matched
    end
  else if matchType =? ErrorMatchTypeRegex then
    match Compile pattern with
    | None => strings.Contains target pattern
    | Some re => MatchString re target
    end
  else
    strings.Contains target pattern.

Definition matchesPattern (errMsg errCode : string)
    (pattern : IgnoreErrorConfig) : bool :=
  let matchType := ruleMatchType pattern in
  let matchType :=
    if matchType =? "" then ErrorMatchTypeSubstring else matchType in
  if negb (ruleCode pattern =? "")
     && negb (matchString errCode (ruleCode pattern) matchType)
  then false
  else if negb (ruleMessage pattern =? "")
          && negb (matchString errMsg (ruleMessage pattern) matchType)
  then false
  else negb (ruleCode pattern =? "") || negb (ruleMessage pattern =? "").

(** The code of an error, as [ShouldIgnoreError] extracts it: the zero
    value [""] unless the error itself is a [StandardError] whose base is
    not nil and carries a non-empty code. *)
Definition extractCode (err : error) : string :=
  match asStandardError err with
  | Some (Some base) => if negb (Code base =? "") then Code base else ""
  | _ => ""
  end.

(** The [for ... range] loop of [ShouldIgnoreError]. *)
Fixpoint anyPattern (errMsg errCode : string)
    (ps : list IgnoreErrorConfig) : bool :=
  match ps with
  | [] => false
  | pattern :: rest =>
      if matchesPattern errMsg errCode pattern then true
      else anyPattern errMsg errCode rest
  end.

Definition ShouldIgnoreError (m : option ErrorMatcher) (err : option error)
  : bool :=
  match err, m with
  | None, _ => false
  | _, None => false
  | Some e, Some m =>
      if len (patterns m) =? 0 then false
      else
        let errMsg := Error e in
        let errCode := extractCode e in
        anyPattern errMsg errCode (elems (patterns m))
  end%nat.

End Matcher.

Definition NewErrorMatcher (patterns : slice IgnoreErrorConfig) : ErrorMatcher :=
  match patterns with
  | None => {| patterns := Some [] |}
  | Some _ => {| patterns := patterns |}
  end.

Definition MergePatterns
    (projectPatterns networkPatterns upstreamPatterns : slice IgnoreErrorConfig)
  : ErrorMatcher :=
  let allPatterns := Go.make in
  let allPatterns := Go.append allPatterns upstreamPatterns in
  let allPatterns := Go.append allPatterns networkPatterns in
  let allPatterns := Go.append allPatterns projectPatterns in
  NewErrorMatcher allPatterns.

(** ** [WildcardMatch] *)

(** [existsSuffix f t]: some suffix of [t], [t] itself included, satisfies
    [f]. *)
Fixpoint existsSuffix (f : string -> bool) (t : string) : bool :=
  f t
  || match t with
     | EmptyString => false
     | String _ t' => existsSuffix f t'
     end.

(** Glob matching with [*] as the only wildcard, anchored at both ends. *)
Fixpoint globMatch (pattern target : string) : bool :=
  match pattern with
  | EmptyString => target =? ""
  | String c pattern' =>
      if Ascii.eqb c "*" then existsSuffix (globMatch pattern') target
      else
        match target with
        | EmptyString => false
        | String d target' => Ascii.eqb c d && globMatch pattern' target'
        end
  end.

(** Modelled from the spec: [WildcardMatch], the glob helper of package
    [common] that [matchString] calls and [error_matcher.go] does not
    define.  The pattern is a glob-style expression where [*] matches zero or
    more arbitrary characters, no other wildcard character is defined, and
    the whole target must be consumed.  The spec names no expression that is
    structurally invalid, so this model reports no error. *)
Definition WildcardMatch (pattern value : string) : bool * option error :=
  (globMatch pattern value, None).

(** What the spec's words say of a glob, as a relation: a literal character
    consumes itself, [*] consumes any run of characters (possibly none), and
    pattern and target end together. *)
Inductive glob : string -> string -> Prop :=
| glob_end : glob "" ""
| glob_char (c : ascii) (p t : string) :
    c <> "*"%char -> glob p t -> glob (String c p) (String c t)
| glob_star (p run t : string) :
    glob p t -> glob (String "*" p) (run ++ t).

(** ** A [regexp] package for a fragment of the RE2 syntax

    Literals, [.], bracket classes with ranges and negation, grouping,
    alternation and the repetitions [*], [+] and [?] (greedy or lazy), matched
    with Brzozowski derivatives, byte by byte.  Unbalanced brackets and
    parentheses and misplaced repetition operators are rejected as Go rejects
    them; so is, in this instance only, the syntax beyond the fragment. *)

Module MiniRegexp.

Inductive regex : Type :=
| Void
| Eps
| Chr (c : ascii)
| Dot
| Bracket (negated : bool) (ranges : list (ascii * ascii))
| Cat (r s : regex)
| Alt (r s : regex)
| Star (r : regex).

Definition inRange (c : ascii) (range : ascii * ascii) : bool :=
  (nat_of_ascii (fst range) <=? nat_of_ascii c)%nat
  && (nat_of_ascii c <=? nat_of_ascii (snd range))%nat.

Definition newline : ascii := ascii_of_nat 10.

Fixpoint nullable (r : regex) : bool :=
  match r with
  | Void | Chr _ | Dot | Bracket _ _ => false
  | Eps | Star _ => true
  | Cat r s => nullable r && nullable s
  | Alt r s => nullable r || nullable s
  end.

Definition ofBool (b : bool) : regex := if b then Eps else Void.

Fixpoint deriv (c : ascii) (r : regex) : regex :=
  match r with
  | Void | Eps => Void
  | Chr d => ofBool (Ascii.eqb c d)
  | Dot => ofBool (negb (Ascii.eqb c newline))
  | Bracket negated ranges => ofBool (xorb negated (existsb (inRange c) ranges))
  | Cat r s =>
      if nullable r then Alt (Cat (deriv c r) s) (deriv c s)
      else Cat (deriv c r) s
  | Alt r s => Alt (deriv c r) (deriv c s)
  | Star r => Cat (deriv c r) (Star r)
  end.

(** The whole of [s] is a match of [r]. *)
Fixpoint fullMatch (r : regex) (s : string) : bool :=
  match s with
  | EmptyString => nullable r
  | String c s' => fullMatch (deriv c r) s'
  end.

(** The strings an expression denotes. *)
Inductive matches : regex -> string -> Prop :=
| matches_Eps : matches Eps ""
| matches_Chr (c : ascii) : matches (Chr c) (String c "")
| matches_Dot (c : ascii) : c <> newline -> matches Dot (String c "")
| matches_Bracket (negated : bool) (ranges : list (ascii * ascii)) (c : ascii) :
    xorb negated (existsb (inRange c) ranges) = true ->
    matches (Bracket negated ranges) (String c "")
| matches_Cat (r s : regex) (u v : string) :
    matches r u -> matches s v -> matches (Cat r s) (u ++ v)
| matches_AltL (r s : regex) (w : string) : matches r w -> matches (Alt r s) w
| matches_AltR (r s : regex) (w : string) : matches s w -> matches (Alt r s) w
| matches_Star0 (r : regex) : matches (Star r) ""
| matches_StarS (r : regex) (u v : string) :
    matches r u -> matches (Star r) v -> matches (Star r) (u ++ v).

(** Some prefix of [s] is a match of [r]. *)
Fixpoint matchPrefix (r : regex) (s : string) : bool :=
  nullable r
  || match s with
     | EmptyString => false
     | String c s' => matchPrefix (deriv c r) s'
     end.

(** Some region of [s] is a match of [r]. *)
Definition search (r : regex) (s : string) : bool :=
  existsSuffix (matchPrefix r) s.

(** *** Parsing *)

Definition isOneOf (chars : string) (c : ascii) : bool :=
  existsb (Ascii.eqb c) (list_ascii_of_string chars).

Definition isAlnum (c : ascii) : bool :=
  inRange c ("0", "9")%char || inRange c ("a", "z")%char
  || inRange c ("A", "Z")%char.

(** One member of a bracket class: a character, escaped or not, or a
    range. *)
Definition parseRange (s : string) : option ((ascii * ascii) * string) :=
  let single (s : string) : option (ascii * string) :=
    match s with
    | EmptyString => None
    | String c rest =>
        if Ascii.eqb c "\" then
          match rest with
          | String d rest' => if isAlnum d then None else Some (d, rest')
          | EmptyString => None
          end
        else Some (c, rest)
    end in
  match single s with
  | None => None
  | Some (lo, String "-" (String d rest as upper)) =>
      if Ascii.eqb d "]" then Some ((lo, lo), String "-" upper)
      else
        match single upper with
        | Some (hi, rest') =>
            if (nat_of_ascii lo <=? nat_of_ascii hi)%nat
            then Some ((lo, hi), rest') else None
        | None => None
        end
  | Some (lo, rest) => Some ((lo, lo), rest)
  end.

(** The members of a bracket class up to the closing bracket; the first
    member is read before a closing bracket is looked for. *)
Fixpoint parseRanges (fuel : nat) (first : bool) (s : string)
  : option (list (ascii * ascii) * string) :=
  match fuel with
  | O => None
  | S fuel' =>
      match s with
      | EmptyString => None
      | String c rest =>
          if negb first && Ascii.eqb c "]" then Some ([], rest)
          else
            match parseRange s with
            | Some (range, rest') =>
                match parseRanges fuel' false rest' with
                | Some (ranges, rest'') => Some (range :: ranges, rest'')
                | None => None
                end
            | None => None
            end
      end
  end.

Definition parseClass (s : string) : option (regex * string) :=
  let '(negated, s') :=
    match s with
    | String "^" s' => (true, s')
    | _ => (false, s)
    end in
  match parseRanges (S (String.length s')) true s' with
  | Some (ranges, rest) => Some (Bracket negated ranges, rest)
  | None => None
  end.

(** A repetition operator after an atom, with its optional lazy mark; a
    second repetition operator is an error. *)
Definition parseRepeat (atom : regex) (s : string) : option (regex * string) :=
  let repeated (r : regex) (rest : string) : option (regex * string) :=
    let rest' :=
      match rest with
      | String "?" rest' => rest'
      | _ => rest
      end in
    match rest' with
    | String c _ => if isOneOf "*+?" c then None else Some (r, rest')
    | EmptyString => Some (r, rest')
    end in
  match s with
  | String "*" rest => repeated (Star atom) rest
  | String "+" rest => repeated (Cat atom (Star atom)) rest
  | String "?" rest => repeated (Alt Eps atom) rest
  | _ => Some (atom, s)
  end.

Fixpoint parseAlt (fuel : nat) (s : string) : option (regex * string) :=
  match fuel with
  | O => None
  | S fuel' =>
      match parseCat fuel' s with
      | Some (r, String "|" rest) =>
          match parseAlt fuel' rest with
          | Some (r', rest') => Some (Alt r r', rest')
          | None => None
          end
      | parsed => parsed
      end
  end
with parseCat (fuel : nat) (s : string) : option (regex * string) :=
  match fuel with
  | O => None
  | S fuel' =>
      match s with
      | EmptyString => Some (Eps, s)
      | String c _ =>
          if isOneOf "|)" c then Some (Eps, s)
          else
            match parseAtom fuel' s with
            | Some (atom, rest) =>
                match parseRepeat atom rest with
                | Some (r, rest') =>
                    match parseCat fuel' rest' with
                    | Some (r', rest'') => Some (Cat r r', rest'')
                    | None => None
                    end
                | None => None
                end
            | None => None
            end
      end
  end
with parseAtom (fuel : nat) (s : string) : option (regex * string) :=
  match fuel with
  | O => None
  | S fuel' =>
      match s with
      | EmptyString => None
      | String c rest =>
          if Ascii.eqb c "(" then
            match parseAlt fuel' rest with
            | Some (r, String ")" rest') => Some (r, rest')
            | _ => None
            end
          else if Ascii.eqb c "[" then parseClass rest
          else if Ascii.eqb c "." then Some (Dot, rest)
          else if Ascii.eqb c "\" then
            match rest with
            | String d rest' =>
                if isAlnum d then None else Some (Chr d, rest')
            | EmptyString => None
            end
          else if isOneOf "*+?{}^$" c then None
          else Some (Chr c, rest)
      end
  end.

Definition compile (pattern : string) : option regex :=
  match parseAlt (3 * String.length pattern + 3) pattern with
  | Some (r, EmptyString) => Some r
  | _ => None
  end.

Definition package : RegexpPackage := {|
  Regexp := regex;
  Compile := compile;
  MatchString := search
|}.

End MiniRegexp.

(** ** The matcher with the glob [WildcardMatch] and the [MiniRegexp] package *)

Definition run_matchString : string -> string -> ErrorMatchType -> bool :=
  matchString (RE := MiniRegexp.package) WildcardMatch.

Definition run_matchesPattern : string -> string -> IgnoreErrorConfig -> bool :=
  matchesPattern (RE := MiniRegexp.package) WildcardMatch.

Definition run_ShouldIgnoreError : option ErrorMatcher -> option error -> bool :=
  ShouldIgnoreError (RE := MiniRegexp.package) WildcardMatch.

(** * Properties *)

(** ** Strings *)

Lemma length_append (a b : string) :
  String.length (a ++ b) = String.length a + String.length b.
Proof. induction a as [|x a IH]; simpl; [reflexivity | now rewrite IH]. Qed.

Lemma eqb_empty_false (s : string) : s <> "" -> (s =? "") = false.
Proof. intros H. now apply String.eqb_neq. Qed.

(** A string that sits inside itself fills itself. *)
Lemma append_inside_self (pre s post : string) :
  s = pre ++ s ++ post -> pre = "" /\ post = "".
Proof.
  intros H. apply (f_equal String.length) in H.
  rewrite !length_append in H.
  destruct pre, post; simpl in *; try (split; reflexivity); lia.
Qed.

Lemma HasPrefix_spec (s p : string) :
  strings.HasPrefix s p = true <-> exists post, s = p ++ post.
Proof.
  revert s. induction p as [|c p IH]; intros s; simpl.
  - split; [intros _; now exists s | reflexivity].
  - destruct s as [|d s]; simpl.
    + split; [discriminate | intros [post H]; discriminate].
    + rewrite andb_true_iff, Ascii.eqb_eq, IH. split.
      * intros [-> [post ->]]. now exists post.
      * intros [post H]. injection H as -> ->. split; [reflexivity | now exists post].
Qed.

Lemma existsSuffix_spec (f : string -> bool) (t : string) :
  existsSuffix f t = true <-> exists pre post, t = pre ++ post /\ f post = true.
Proof.
  induction t as [|c t IH]; simpl.
  - rewrite orb_false_r. split.
    + intros H. now exists "", "".
    + intros (pre & post & H & Hf). destruct pre; [|discriminate].
      simpl in H. now subst post.
  - rewrite orb_true_iff, IH. split.
    + intros [H | (pre & post & -> & Hf)].
      * now exists "", (String c t).
      * now exists (String c pre), post.
    + intros (pre & post & H & Hf). destruct pre as [|d pre]; simpl in H.
      * left. now subst post.
      * right. injection H as _ ->. now exists pre, post.
Qed.

Lemma Contains_existsSuffix (s p : string) :
  strings.Contains s p = existsSuffix (fun t => strings.HasPrefix t p) s.
Proof. induction s as [|c s IH]; simpl; [reflexivity | now rewrite IH]. Qed.

Lemma Contains_spec (s p : string) :
  strings.Contains s p = true <-> exists pre post, s = pre ++ p ++ post.
Proof.
  rewrite Contains_existsSuffix, existsSuffix_spec. split.
  - intros (pre & t & -> & H). apply HasPrefix_spec in H as [post ->].
    now exists pre, post.
  - intros (pre & post & ->). exists pre, (p ++ post). split; [reflexivity|].
    apply HasPrefix_spec. now exists post.
Qed.

(** ** The match-type dispatch of [matchString] *)

Section Dispatch.

Context {RE : RegexpPackage}.
Variable W : string -> string -> bool * option error.

Lemma matchString_empty_target (pattern : string) (mt : ErrorMatchType) :
  matchString W "" pattern mt = false.
Proof. reflexivity. Qed.

Lemma matchString_empty_pattern (target : string) (mt : ErrorMatchType) :
  matchString W target "" mt = false.
Proof. unfold matchString. now rewrite String.eqb_refl, orb_true_r. Qed.

(** Steps over the guard of [matchString] when target and pattern are known
    to be non-empty. *)
Ltac past_guard Ht Hp :=
  unfold matchString;
  rewrite (eqb_empty_false _ Ht), (eqb_empty_false _ Hp); simpl.

Lemma matchString_as_exact (target pattern : string) :
  target <> "" -> pattern <> "" ->
  matchString W target pattern ErrorMatchTypeExact = (target =? pattern).
Proof.
  intros Ht Hp. now past_guard Ht Hp.
Qed.

Lemma matchString_as_substring (target pattern : string) :
  target <> "" -> pattern <> "" ->
  matchString W target pattern ErrorMatchTypeSubstring
  = strings.Contains target pattern.
Proof.
  intros Ht Hp. now past_guard Ht Hp.
Qed.

Lemma matchString_as_wildcard (target pattern : string) :
  target <> "" -> pattern <> "" ->
  matchString W target pattern ErrorMatchTypeWildcard
  = match snd (W pattern target) with
    | Some _ => strings.Contains target pattern
    | None => fst (W pattern target)
    end.
Proof.
  intros Ht Hp. past_guard Ht Hp.
  now destruct (W pattern target) as [matched [e|]].
Qed.

Lemma matchString_as_regex (target pattern : string) :
  target <> "" -> pattern <> "" ->
  matchString W target pattern ErrorMatchTypeRegex
  = match Compile pattern with
    | None => strings.Contains target pattern
    | Some re => MatchString re target
    end.
Proof.
  intros Ht Hp. now past_guard Ht Hp.
Qed.

(** The [default] branch of the switch. *)
Lemma matchString_default (target pattern : string) (mt : ErrorMatchType) :
  mt <> ErrorMatchTypeExact -> mt <> ErrorMatchTypeWildcard ->
  mt <> ErrorMatchTypeRegex ->
  matchString W target pattern mt
  = matchString W target pattern ErrorMatchTypeSubstring.
Proof.
  intros He Hw Hr. unfold matchString.
  destruct ((target =? "") || (pattern =? "")); [reflexivity|].
  apply String.eqb_neq in He, Hw, Hr. rewrite He, Hw, Hr.
  now destruct (mt =? ErrorMatchTypeSubstring).
Qed.

(** The defaulting of [matchesPattern] changes nothing [matchString] would
    not do by itself. *)
Lemma effective_matchType (target pattern : string) (mt : ErrorMatchType) :
  matchString W target pattern
    (if mt =? "" then ErrorMatchTypeSubstring else mt)
  = matchString W target pattern mt.
Proof.
  destruct (String.eqb_spec mt "") as [->|]; [|reflexivity].
  symmetry. now apply matchString_default.
Qed.

(** [matchesPattern] as a formula: every constraint that is present holds,
    and one is present. *)
Lemma matchesPattern_formula (errMsg errCode : string)
    (rule : IgnoreErrorConfig) :
  matchesPattern W errMsg errCode rule
  = ((ruleCode rule =? "")
     || matchString W errCode (ruleCode rule) (ruleMatchType rule))
    && ((ruleMessage rule =? "")
        || matchString W errMsg (ruleMessage rule) (ruleMatchType rule))
    && negb ((ruleCode rule =? "") && (ruleMessage rule =? "")).
Proof.
  unfold matchesPattern. cbv zeta. rewrite !effective_matchType.
  destruct (ruleCode rule =? ""), (ruleMessage rule =? ""),
    (matchString W errCode (ruleCode rule) (ruleMatchType rule)),
    (matchString W errMsg (ruleMessage rule) (ruleMatchType rule));
    reflexivity.
Qed.

Lemma anyPattern_existsb (errMsg errCode : string)
    (ps : list IgnoreErrorConfig) :
  anyPattern W errMsg errCode ps
  = existsb (matchesPattern W errMsg errCode) ps.
Proof.
  induction ps as [|p ps IH]; simpl; [reflexivity|].
  rewrite IH. now destruct (matchesPattern W errMsg errCode p).
Qed.

Lemma anyPattern_true (errMsg errCode : string)
    (ps : list IgnoreErrorConfig) :
  anyPattern W errMsg errCode ps = true <->
  exists rule, In rule ps /\ matchesPattern W errMsg errCode rule = true.
Proof. rewrite anyPattern_existsb. apply existsb_exists. Qed.

(** On a matcher and an error that are both there, [ShouldIgnoreError] is
    the loop over the rules. *)
Lemma ShouldIgnoreError_loop (m : ErrorMatcher) (e : error) :
  ShouldIgnoreError W (Some m) (Some e)
  = anyPattern W (Error e) (extractCode e) (elems (patterns m)).
Proof.
  unfold ShouldIgnoreError, len.
  now destruct (elems (patterns m)) as [|p ps].
Qed.

End Dispatch.

(** ** Merging the tiers *)

Lemma MergePatterns_patterns (p n u : slice IgnoreErrorConfig) :
  patterns (MergePatterns p n u) = Some (elems u ++ elems n ++ elems p)%list.
Proof.
  unfold MergePatterns, NewErrorMatcher, Go.make, Go.append. simpl.
  destruct u, n, p; simpl; rewrite ?app_nil_r, ?app_assoc; reflexivity.
Qed.

Lemma In_merged (p n u : slice IgnoreErrorConfig) (rule : IgnoreErrorConfig) :
  In rule (elems (patterns (MergePatterns p n u))) <->
  exists tier, In tier [p; n; u] /\ In rule (elems tier).
Proof.
  rewrite MergePatterns_patterns. simpl. rewrite !in_app_iff. split.
  - intros [H | [H | H]]; eauto 6.
  - intros (tier & [<- | [<- | [<- | []]]] & H); auto.
Qed.

(** ** The glob of [WildcardMatch] *)

Lemma globMatch_glob (pattern target : string) :
  globMatch pattern target = true <-> glob pattern target.
Proof.
  split.
  - revert target. induction pattern as [|c p IH]; intros target; simpl.
    + intros H. apply String.eqb_eq in H. subst target. constructor.
    + destruct (Ascii.eqb_spec c "*") as [->|Hc].
      * intros H. apply existsSuffix_spec in H as (run & t & -> & H).
        constructor. now apply IH.
      * destruct target as [|d t]; [discriminate|].
        intros H. apply andb_true_iff in H as [Hd H].
        apply Ascii.eqb_eq in Hd. subst d. constructor; auto.
  - induction 1 as [|c p t Hc _ IH|p run t _ IH]; simpl.
    + reflexivity.
    + apply Ascii.eqb_neq in Hc. now rewrite Hc, Ascii.eqb_refl, IH.
    + apply existsSuffix_spec. now exists run, t.
Qed.

(** ** Searching with derivatives *)

Module MiniRegexpFacts.
Import MiniRegexp.

Lemma append_eq_empty (u v : string) : u ++ v = "" -> u = "" /\ v = "".
Proof. destruct u; [simpl; auto | discriminate]. Qed.

Lemma nullable_matches (r : regex) : nullable r = true <-> matches r "".
Proof.
  split.
  - induction r; simpl; intros H; try discriminate.
    + constructor.
    + apply andb_true_iff in H as [H1 H2].
      apply (matches_Cat _ _ "" ""); auto.
    + apply orb_true_iff in H as [H|H];
        [apply matches_AltL | apply matches_AltR]; auto.
    + constructor.
  - induction r; simpl; intros H; inversion H; subst; auto.
    + match goal with E : _ ++ _ = "" |- _ =>
        apply append_eq_empty in E as [-> ->] end.
      apply andb_true_iff. auto.
    + apply orb_true_iff. auto.
    + apply orb_true_iff. auto.
Qed.

Lemma matches_ofBool (b : bool) (w : string) :
  matches (ofBool b) w <-> b = true /\ w = "".
Proof.
  destruct b; simpl; split.
  - intros H. inversion H. auto.
  - intros [_ ->]. constructor.
  - intros H. inversion H.
  - intros [H _]. discriminate.
Qed.

(** A non-empty match of a starred expression starts with a non-empty match
    of the expression. *)
Lemma matches_Star_cons (r : regex) (c : ascii) (s : string) :
  matches (Star r) (String c s) ->
  exists u v, s = u ++ v /\ matches r (String c u) /\ matches (Star r) v.
Proof.
  intros H. remember (Star r) as sr eqn:Er. remember (String c s) as w eqn:Ew.
  revert s Ew. induction H as [| | | | | | | |r' u v Hu _ Hv IHv];
    intros t Et; try discriminate.
  injection Er as ->. destruct u as [|d u]; simpl in Et.
  - now apply IHv.
  - injection Et as -> <-. now exists u, v.
Qed.

Lemma deriv_matches (c : ascii) (r : regex) (s : string) :
  matches (deriv c r) s <-> matches r (String c s).
Proof.
  revert s. induction r as [| |d| |negated ranges|r1 IH1 r2 IH2|r1 IH1 r2 IH2|r IH];
    intros s; simpl.
  - split; intros H; inversion H.
  - split; intros H; inversion H.
  - rewrite matches_ofBool, Ascii.eqb_eq. split.
    + intros [-> ->]. constructor.
    + intros H. inversion H. auto.
  - rewrite matches_ofBool, negb_true_iff, Ascii.eqb_neq. split.
    + intros [Hc ->]. now constructor.
    + intros H. inversion H. auto.
  - rewrite matches_ofBool. split.
    + intros [Hc ->]. now constructor.
    + intros H. inversion H. auto.
  - assert (Hcat : matches (Cat (deriv c r1) r2) s ->
                   matches (Cat r1 r2) (String c s)).
    { intros H. inversion H as [| | | |? ? u v Hu Hv| | | |]; subst.
      apply IH1 in Hu. apply (matches_Cat _ _ (String c u) v); auto. }
    assert (Hskip : nullable r1 = true -> matches (deriv c r2) s ->
                    matches (Cat r1 r2) (String c s)).
    { intros Hn H. apply nullable_matches in Hn. apply IH2 in H.
      apply (matches_Cat _ _ "" (String c s)); auto. }
    assert (Hback : matches (Cat r1 r2) (String c s) ->
                    matches (Cat (deriv c r1) r2) s
                    \/ (nullable r1 = true /\ matches (deriv c r2) s)).
    { intros H. inversion H as [| | | |? ? u v Hu Hv| | | |]; subst.
      match goal with E : u ++ v = String c s |- _ =>
        destruct u as [|d u]; simpl in E;
        [subst v | injection E as -> <-] end.
      - right. split; [now apply nullable_matches | now apply IH2].
      - left. apply matches_Cat; [now apply IH1 | auto]. }
    destruct (nullable r1) eqn:Hn; split.
    + intros H. inversion H; subst; auto.
    + intros H. destruct (Hback H) as [H'|[_ H']];
        [now apply matches_AltL | now apply matches_AltR].
    + exact Hcat.
    + intros H. destruct (Hback H) as [H'|[H' _]]; [exact H' | discriminate].
  - split.
    + intros H. inversion H; subst;
        [apply matches_AltL; now apply IH1 | apply matches_AltR; now apply IH2].
    + intros H. inversion H; subst;
        [apply matches_AltL; now apply IH1 | apply matches_AltR; now apply IH2].
  - split.
    + intros H. inversion H as [| | | |? ? u v Hu Hv| | | |]; subst.
      apply IH in Hu. apply (matches_StarS _ (String c u) v); auto.
    + intros H. apply matches_Star_cons in H as (u & v & -> & Hu & Hv).
      apply matches_Cat; [now apply IH | auto].
Qed.

(** The derivative matcher decides the denotation. *)
Lemma fullMatch_matches (r : regex) (s : string) :
  fullMatch r s = true <-> matches r s.
Proof.
  revert r. induction s as [|c s IH]; intros r; simpl.
  - apply nullable_matches.
  - rewrite IH. apply deriv_matches.
Qed.

End MiniRegexpFacts.

Lemma matchPrefix_spec (r : MiniRegexp.regex) (s : string) :
  MiniRegexp.matchPrefix r s = true <->
  exists mid post, s = mid ++ post /\ MiniRegexp.fullMatch r mid = true.
Proof.
  revert r. induction s as [|c s IH]; intros r; simpl.
  - rewrite orb_false_r. split.
    + intros H. now exists "", "".
    + intros (mid & post & H & Hm). destruct mid; [exact Hm | discriminate].
  - rewrite orb_true_iff, IH. split.
    + intros [H | (mid & post & -> & H)].
      * now exists "", (String c s).
      * now exists (String c mid), post.
    + intros (mid & post & H & Hm). destruct mid as [|d mid]; simpl in *.
      * now left.
      * right. injection H as <- ->. now exists mid, post.
Qed.

(** The package keeps the contract of [MatchString]. *)
Lemma search_reports_any_match :
  reports_any_match MiniRegexp.package
    (fun re _ mid _ => MiniRegexp.matches re mid).
Proof.
  intros re s. simpl. unfold MiniRegexp.search. rewrite existsSuffix_spec.
  split.
  - intros (pre & t & -> & H).
    apply matchPrefix_spec in H as (mid & post & -> & H).
    apply MiniRegexpFacts.fullMatch_matches in H. now exists pre, mid, post.
  - intros (pre & mid & post & -> & H). exists pre, (mid ++ post).
    split; [reflexivity|]. apply matchPrefix_spec. exists mid, post.
    split; [reflexivity | now apply MiniRegexpFacts.fullMatch_matches].
Qed.

(** ** What the specification states *)

Section Claims.

Context {RE : RegexpPackage}.
Variable W : string -> string -> bool * option error.

(** C1. [ShouldIgnoreError] returns false when the error is nil or the
    matcher holds no rule; on an error [e] it returns true exactly when
    some rule of the matcher's sequence matches the message and the code
    extracted from [e]: an OR across all rules. *)
Theorem ShouldIgnoreError_any_rule (m : ErrorMatcher) (err : option error) :
  (err = None \/ len (patterns m) = 0 ->
   ShouldIgnoreError W (Some m) err = false)
  /\ (forall e : error, err = Some e ->
      (ShouldIgnoreError W (Some m) err = true <->
       exists rule,
         In rule (elems (patterns m))
         /\ matchesPattern W (Error e) (extractCode e) rule = true)).
Proof.
  split.
  - intros [-> | Hlen]; [reflexivity|].
    destruct err as [e|]; [|reflexivity].
    unfold ShouldIgnoreError. now rewrite Hlen.
  - intros e ->. rewrite ShouldIgnoreError_loop. apply anyPattern_true.
Qed.

(** C2. A rule that carries both a code pattern and a message pattern
    matches exactly when the code pattern matches the error's code and the
    message pattern matches the error's message, both under the rule's
    match type; replacing either field alone by a value its pattern does
    not match makes the rule not match. *)
Theorem matchesPattern_both (rule : IgnoreErrorConfig)
    (errMsg errCode : string) :
  ruleCode rule <> "" -> ruleMessage rule <> "" ->
  (matchesPattern W errMsg errCode rule = true <->
   matchString W errCode (ruleCode rule) (ruleMatchType rule) = true
   /\ matchString W errMsg (ruleMessage rule) (ruleMatchType rule) = true)
  /\ (forall errCode' : string,
      matchString W errCode' (ruleCode rule) (ruleMatchType rule) = false ->
      matchesPattern W errMsg errCode' rule = false)
  /\ (forall errMsg' : string,
      matchString W errMsg' (ruleMessage rule) (ruleMatchType rule) = false ->
      matchesPattern W errMsg' errCode rule = false).
Proof.
  intros Hc Hm.
  assert (F : forall msg code,
    matchesPattern W msg code rule
    = matchString W code (ruleCode rule) (ruleMatchType rule)
      && matchString W msg (ruleMessage rule) (ruleMatchType rule)).
  { intros msg code. rewrite matchesPattern_formula.
    rewrite (eqb_empty_false _ Hc), (eqb_empty_false _ Hm). simpl.
    now rewrite andb_true_r. }
  repeat split.
  - rewrite F in H. now apply andb_true_iff in H.
  - rewrite F in H. now apply andb_true_iff in H.
  - intros [H1 H2]. now rewrite F, H1, H2.
  - intros code' H. now rewrite F, H.
  - intros msg' H. now rewrite F, H, andb_false_r.
Qed.

(** C7. Under [exact], a non-empty target matches a non-empty pattern
    exactly when the two are the same string, byte for byte; a target that
    merely contains the pattern, with something before or after it, does
    not match. *)
Theorem matchString_exact (target pattern : string) :
  target <> "" -> pattern <> "" ->
  (matchString W target pattern ErrorMatchTypeExact = true <->
   target = pattern)
  /\ (forall pre post : string,
      target = pre ++ pattern ++ post -> pre <> "" \/ post <> "" ->
      matchString W target pattern ErrorMatchTypeExact = false).
Proof.
  intros Ht Hp. rewrite (matchString_as_exact W _ _ Ht Hp). split.
  - apply String.eqb_eq.
  - intros pre post E Hne. apply String.eqb_neq. intros ->.
    apply append_inside_self in E. destruct E as [-> ->].
    now destruct Hne.
Qed.

(** C8. Under [substring], a non-empty target matches a non-empty pattern
    exactly when the pattern occurs somewhere within the target, byte for
    byte; every match type other than [exact], [wildcard] and [regex], the
    empty one included, is evaluated the same way, by [matchString] and by
    [matchesPattern]. *)
Theorem matchString_substring (target pattern : string) :
  target <> "" -> pattern <> "" ->
  (matchString W target pattern ErrorMatchTypeSubstring = true <->
   exists pre post, target = pre ++ pattern ++ post)
  /\ (forall mt : ErrorMatchType,
      mt <> ErrorMatchTypeExact -> mt <> ErrorMatchTypeWildcard ->
      mt <> ErrorMatchTypeRegex ->
      matchString W target pattern mt
      = matchString W target pattern ErrorMatchTypeSubstring
      /\ forall (code message errMsg errCode : string),
          matchesPattern W errMsg errCode
            {| ruleCode := code; ruleMessage := message;
               ruleMatchType := mt |}
          = matchesPattern W errMsg errCode
              {| ruleCode := code; ruleMessage := message;
                 ruleMatchType := ErrorMatchTypeSubstring |}).
Proof.
  intros Ht Hp. split.
  - rewrite (matchString_as_substring W _ _ Ht Hp). apply Contains_spec.
  - intros mt He Hw Hr. split; [now apply matchString_default|].
    intros code message errMsg errCode.
    rewrite !matchesPattern_formula. simpl.
    now rewrite !(matchString_default W _ _ mt He Hw Hr).
Qed.

(** C9. Whatever the match type, [matchString] returns false when the
    target is empty and when the pattern is empty; a rule whose code and
    message patterns are both empty matches no message and no code. *)
Theorem empty_never_matches (mt : ErrorMatchType) :
  (forall pattern : string, matchString W "" pattern mt = false)
  /\ (forall target : string, matchString W target "" mt = false)
  /\ (forall errMsg errCode : string,
      matchesPattern W errMsg errCode
        {| ruleCode := ""; ruleMessage := ""; ruleMatchType := mt |}
      = false).
Proof.
  split; [|split].
  - intros pattern. apply matchString_empty_target.
  - intros target. apply matchString_empty_pattern.
  - intros errMsg errCode. now rewrite matchesPattern_formula.
Qed.

(** C10. On a nil receiver [ShouldIgnoreError] returns false for every
    error, nil included; [NewErrorMatcher] of a nil rule list builds the
    matcher it builds of an empty rule list, and that matcher ignores no
    error. *)
Theorem nil_matcher_ignores_nothing (err : option error) :
  ShouldIgnoreError W None err = false
  /\ NewErrorMatcher None = NewErrorMatcher (Some [])
  /\ ShouldIgnoreError W (Some (NewErrorMatcher None)) err
     = ShouldIgnoreError W (Some (NewErrorMatcher (Some []))) err
  /\ ShouldIgnoreError W (Some (NewErrorMatcher None)) err = false.
Proof. destruct err as [e|]; repeat split. Qed.

(** C3. [MergePatterns] builds a matcher over the upstream rules followed
    by the network rules followed by the project rules; the merged matcher
    ignores an error exactly when some rule of some tier matches it, so
    that handing the three tiers over in any other order gives the same
    answer. *)
Theorem MergePatterns_union
    (projectRules networkRules upstreamRules : slice IgnoreErrorConfig)
    (err : option error) :
  patterns (MergePatterns projectRules networkRules upstreamRules)
  = Some (elems upstreamRules ++ elems networkRules ++ elems projectRules)%list
  /\ (forall e : error, err = Some e ->
      (ShouldIgnoreError W
         (Some (MergePatterns projectRules networkRules upstreamRules)) err
       = true <->
       exists rule,
         (In rule (elems upstreamRules) \/ In rule (elems networkRules)
          \/ In rule (elems projectRules))
         /\ matchesPattern W (Error e) (extractCode e) rule = true))
  /\ (forall a b c : slice IgnoreErrorConfig,
      Permutation [a; b; c] [projectRules; networkRules; upstreamRules] ->
      ShouldIgnoreError W (Some (MergePatterns a b c)) err
      = ShouldIgnoreError W
          (Some (MergePatterns projectRules networkRules upstreamRules)) err).
Proof.
  split; [apply MergePatterns_patterns|]. split.
  - intros e ->. rewrite ShouldIgnoreError_loop, anyPattern_true.
    rewrite MergePatterns_patterns. simpl.
    split; intros (rule & Hin & Hm); exists rule; split; trivial;
      rewrite !in_app_iff in *; exact Hin.
  - intros a b c Hperm. destruct err as [e|]; [|reflexivity].
    apply eq_true_iff_eq. rewrite !ShouldIgnoreError_loop, !anyPattern_true.
    split; intros (rule & Hin & Hm); exists rule; split; trivial;
      apply In_merged in Hin as (tier & Ht & Hr); apply In_merged;
      exists tier; split; trivial.
    + now apply (Permutation_in _ Hperm).
    + now apply (Permutation_in _ (Permutation_sym Hperm)).
Qed.

(** C4. The code is read off the outermost error only.  For a structured
    error with a non-empty code and rules that constrain the code alone:
    the error exposes its code; an error wrapping it, as any error that is
    not itself a [StandardError], exposes none and is never ignored; the
    structured error itself is ignored exactly when the code pattern of
    some rule matches its code, whatever its text.  A rule with a code
    pattern never matches an error that exposes no code. *)
Theorem code_read_from_outermost_error (text : string) (base : BaseError)
    (rules : list IgnoreErrorConfig) (msg : string) :
  Code base <> "" ->
  Forall (fun rule => ruleCode rule <> "" /\ ruleMessage rule = "") rules ->
  let inner := standardError text (Some base) in
  let m := Some (NewErrorMatcher (Some rules)) in
  extractCode inner = Code base
  /\ extractCode (wrapError msg inner) = ""
  /\ ShouldIgnoreError W m (Some (wrapError msg inner)) = false
  /\ (forall outer : error, asStandardError outer = None ->
      ShouldIgnoreError W m (Some outer) = false)
  /\ (ShouldIgnoreError W m (Some inner) = true <->
      exists rule,
        In rule rules
        /\ matchString W (Code base) (ruleCode rule) (ruleMatchType rule)
           = true)
  /\ (forall (e : error) (rule : IgnoreErrorConfig),
      ruleCode rule <> "" -> extractCode e = "" ->
      matchesPattern W (Error e) (extractCode e) rule = false).
Proof.
  intros Hcode Hrules inner m.
  assert (Hinner : extractCode inner = Code base).
  { unfold extractCode. simpl. now rewrite (eqb_empty_false _ Hcode). }
  assert (Hnone : forall errMsg rule, ruleCode rule <> "" ->
            matchesPattern W errMsg "" rule = false).
  { intros errMsg rule Hr. rewrite matchesPattern_formula.
    now rewrite (eqb_empty_false _ Hr), matchString_empty_target. }
  rewrite Forall_forall in Hrules.
  assert (Houter : forall outer : error, asStandardError outer = None ->
            ShouldIgnoreError W m (Some outer) = false).
  { intros outer Ho. apply not_true_is_false. unfold m.
    rewrite ShouldIgnoreError_loop, anyPattern_true.
    intros (rule & Hin & Hm). unfold extractCode in Hm. rewrite Ho in Hm.
    rewrite Hnone in Hm; [discriminate|]. now apply Hrules. }
  split; [exact Hinner|]. split; [reflexivity|].
  split; [now apply Houter|]. split; [exact Houter|]. split.
  - unfold m. rewrite ShouldIgnoreError_loop, anyPattern_true, Hinner.
    split; intros (rule & Hin & Hm); exists rule; split; trivial;
      destruct (Hrules _ Hin) as [Hc Hmsg];
      rewrite matchesPattern_formula, Hmsg, (eqb_empty_false _ Hc) in *;
      simpl in *.
    + now rewrite !andb_true_r in Hm.
    + now rewrite Hm.
  - intros e rule Hr ->. now apply Hnone.
Qed.

End Claims.

Section Fallbacks.

Context {RE : RegexpPackage}.

(** C5. Under [wildcard], with a non-empty target and a non-empty
    pattern: whatever [WildcardMatch] is, [matchString] returns its verdict
    when it reports no error and the substring result when it reports one;
    with the glob the specification describes, the match succeeds exactly
    when the pattern, each [*] standing for a run of zero or more
    characters, spells out the whole target.  In particular
    [transaction*underpriced] matches [transaction is underpriced] and
    [transaction underpriced] and not [underpriced transaction]. *)
Theorem matchString_wildcard (target pattern : string) :
  target <> "" -> pattern <> "" ->
  (forall W : string -> string -> bool * option error,
      (snd (W pattern target) = None ->
       matchString W target pattern ErrorMatchTypeWildcard
       = fst (W pattern target))
      /\ (snd (W pattern target) <> None ->
          matchString W target pattern ErrorMatchTypeWildcard
          = matchString W target pattern ErrorMatchTypeSubstring
          /\ (matchString W target pattern ErrorMatchTypeWildcard = true <->
              exists pre post, target = pre ++ pattern ++ post)))
  /\ (matchString WildcardMatch target pattern ErrorMatchTypeWildcard = true
      <-> glob pattern target)
  /\ matchString WildcardMatch "transaction is underpriced"
       "transaction*underpriced" ErrorMatchTypeWildcard = true
  /\ matchString WildcardMatch "transaction underpriced"
       "transaction*underpriced" ErrorMatchTypeWildcard = true
  /\ matchString WildcardMatch "underpriced transaction"
       "transaction*underpriced" ErrorMatchTypeWildcard = false.
Proof.
  intros Ht Hp. split; [|split].
  - intros W. rewrite (matchString_as_wildcard W _ _ Ht Hp).
    rewrite (matchString_as_substring W _ _ Ht Hp).
    destruct (snd (W pattern target)) as [e|]; split; try congruence.
    intros _. split; [reflexivity | apply Contains_spec].
  - rewrite (matchString_as_wildcard _ _ _ Ht Hp). simpl.
    apply globMatch_glob.
  - repeat split.
Qed.

(** C6. Under [regex], with a non-empty target and a non-empty pattern,
    and [MatchString] reporting whether its argument contains a match:
    when the pattern compiles, [matchString] returns true exactly when some
    contiguous region of the target is a match of it; when it does not
    compile, [matchString] returns the substring result, true exactly when
    the raw pattern occurs in the target.  So the pattern [[invalid(regex],
    if it does not compile, matches every target that contains it. *)
Theorem matchString_regex
    (matchAt : Regexp -> string -> string -> string -> Prop)
    (W : string -> string -> bool * option error)
    (target pattern : string) :
  reports_any_match RE matchAt ->
  target <> "" -> pattern <> "" ->
  (forall re : Regexp, Compile pattern = Some re ->
      (matchString W target pattern ErrorMatchTypeRegex = true <->
       exists pre mid post,
         target = pre ++ mid ++ post /\ matchAt re pre mid post))
  /\ (Compile pattern = None ->
      matchString W target pattern ErrorMatchTypeRegex
      = matchString W target pattern ErrorMatchTypeSubstring
      /\ (matchString W target pattern ErrorMatchTypeRegex = true <->
          exists pre post, target = pre ++ pattern ++ post))
  /\ (Compile "[invalid(regex" = None ->
      forall pre post : string,
        matchString W (pre ++ "[invalid(regex" ++ post) "[invalid(regex"
          ErrorMatchTypeRegex = true).
Proof.
  intros Hlang Ht Hp. split; [|split].
  - intros re Hre. rewrite (matchString_as_regex W _ _ Ht Hp), Hre.
    apply Hlang.
  - intros Hnone. rewrite (matchString_as_regex W _ _ Ht Hp), Hnone.
    rewrite (matchString_as_substring W _ _ Ht Hp).
    split; [reflexivity | apply Contains_spec].
  - intros Hnone pre post. rewrite matchString_as_regex.
    + rewrite Hnone. apply Contains_spec. now exists pre, post.
    + now destruct pre.
    + discriminate.
Qed.

End Fallbacks.


(** ** The theorems at the inputs of the repository's tests *)

(** [TestErrorMatcher_ShouldIgnoreError_SubstringMatch], second pattern. *)
Lemma ShouldIgnoreError_any_rule_witness :
  let m := NewErrorMatcher (Some
    [ {| ruleCode := ""; ruleMessage := "transaction underpriced";
         ruleMatchType := ErrorMatchTypeSubstring |};
      {| ruleCode := ""; ruleMessage := "nonce too low";
         ruleMatchType := "" |} ]) in
  let e := errorString "the nonce too low for this tx" in
  run_ShouldIgnoreError (Some m) None = false
  /\ exists rule,
      In rule (elems (patterns m))
      /\ run_matchesPattern (Error e) (extractCode e) rule = true.
Proof.
  intros m e. split.
  - apply (proj1 (ShouldIgnoreError_any_rule (RE := MiniRegexp.package) WildcardMatch m None)).
    left. reflexivity.
  - apply (proj2 (ShouldIgnoreError_any_rule (RE := MiniRegexp.package) WildcardMatch m (Some e)) e eq_refl).
    reflexivity.
Defined.

(** [TestErrorMatcher_ShouldIgnoreError_CodeAndMessageMatch]. *)
Lemma matchesPattern_both_witness :
  let rule := {| ruleCode := "ErrEndpointCapacityExceeded";
                 ruleMessage := "rate limit";
                 ruleMatchType := ErrorMatchTypeSubstring |} in
  ruleCode rule <> "" /\ ruleMessage rule <> ""
  /\ run_matchesPattern "rate limit exceeded" "ErrEndpointCapacityExceeded" rule
     = true
  /\ run_matchesPattern "rate limit exceeded" "ErrSomeOtherError" rule = false
  /\ run_matchesPattern "capacity full" "ErrEndpointCapacityExceeded" rule
     = false.
Proof.
  intros rule.
  assert (Hc : ruleCode rule <> "") by discriminate.
  assert (Hm : ruleMessage rule <> "") by discriminate.
  pose proof (matchesPattern_both (RE := MiniRegexp.package) WildcardMatch rule "rate limit exceeded"
                "ErrEndpointCapacityExceeded" Hc Hm) as (Hboth & Hcode & Hmsg).
  split; [exact Hc|]. split; [exact Hm|]. split; [|split].
  - apply Hboth. split; reflexivity.
  - apply Hcode. reflexivity.
  - apply Hmsg. reflexivity.
Defined.

(** [TestErrorMatcher_ShouldIgnoreError_ExactMatch]: the target contains the
    pattern and is not equal to it; and a target that differs in case. *)
Lemma matchString_exact_witness :
  let target := "error: transaction underpriced for account" in
  let pattern := "transaction underpriced" in
  target <> "" /\ pattern <> ""
  /\ run_matchString target pattern ErrorMatchTypeExact = false
  /\ run_matchString pattern pattern ErrorMatchTypeExact = true
  /\ run_matchString "Transaction Underpriced" pattern ErrorMatchTypeExact
     = false.
Proof.
  intros target pattern.
  assert (Ht : target <> "") by discriminate.
  assert (Hp : pattern <> "") by discriminate.
  split; [exact Ht|]. split; [exact Hp|]. split; [|split].
  - apply (proj2 (matchString_exact (RE := MiniRegexp.package) WildcardMatch target pattern Ht Hp)
             "error: " " for account").
    + reflexivity.
    + left. discriminate.
  - apply (proj1 (matchString_exact (RE := MiniRegexp.package) WildcardMatch pattern pattern Hp Hp)).
    reflexivity.
  - reflexivity.
Defined.

(** [TestErrorMatcher_ShouldIgnoreError_SubstringMatch]; an unknown match
    type behaves as [substring], and letter case counts. *)
Lemma matchString_substring_witness :
  let target := "error: transaction underpriced for account" in
  let pattern := "transaction underpriced" in
  target <> "" /\ pattern <> ""
  /\ run_matchString target pattern ErrorMatchTypeSubstring = true
  /\ run_matchString target pattern "fuzzy" = true
  /\ run_matchString target pattern "" = true
  /\ run_matchString target "Transaction" ErrorMatchTypeSubstring = false.
Proof.
  intros target pattern.
  assert (Ht : target <> "") by discriminate.
  assert (Hp : pattern <> "") by discriminate.
  pose proof (matchString_substring (RE := MiniRegexp.package) WildcardMatch target pattern Ht Hp)
    as (Hsub & Hother).
  assert (Htrue : run_matchString target pattern ErrorMatchTypeSubstring = true).
  { apply Hsub. exists "error: ", " for account". reflexivity. }
  split; [exact Ht|]. split; [exact Hp|]. split; [exact Htrue|].
  split; [|split].
  - unfold run_matchString.
    rewrite (proj1 (Hother "fuzzy" ltac:(discriminate) ltac:(discriminate)
                      ltac:(discriminate))).
    exact Htrue.
  - unfold run_matchString.
    rewrite (proj1 (Hother "" ltac:(discriminate) ltac:(discriminate)
                      ltac:(discriminate))).
    exact Htrue.
  - reflexivity.
Defined.

(** [TestErrorMatcher_NestedStandardError]. *)
Lemma code_read_from_outermost_error_witness :
  let base := {| Code := "ErrUpstreamRequest"; Message := "upstream failed" |} in
  let innerErr := standardError "ErrUpstreamRequest: upstream failed" (Some base) in
  let wrappedErr := Errorf_w "wrapped: " innerErr in
  let rules := [ {| ruleCode := "ErrUpstreamRequest"; ruleMessage := "";
                    ruleMatchType := ErrorMatchTypeExact |} ] in
  let matcher := Some (NewErrorMatcher (Some rules)) in
  Code base <> ""
  /\ Forall (fun rule => ruleCode rule <> "" /\ ruleMessage rule = "") rules
  /\ Error wrappedErr = "wrapped: ErrUpstreamRequest: upstream failed"
  /\ run_ShouldIgnoreError matcher (Some wrappedErr) = false
  /\ run_ShouldIgnoreError matcher (Some innerErr) = true.
Proof.
  intros base innerErr wrappedErr rules matcher.
  assert (Hc : Code base <> "") by discriminate.
  assert (Hr : Forall (fun rule => ruleCode rule <> "" /\ ruleMessage rule = "")
                 rules).
  { repeat constructor. discriminate. }
  pose proof (code_read_from_outermost_error (RE := MiniRegexp.package) WildcardMatch
                "ErrUpstreamRequest: upstream failed" base rules
                (Error wrappedErr) Hc Hr)
    as (_ & _ & Hwrapped & _ & Hinner & _).
  split; [exact Hc|]. split; [exact Hr|]. split; [reflexivity|].
  split; [exact Hwrapped|].
  apply Hinner. exists {| ruleCode := "ErrUpstreamRequest"; ruleMessage := "";
                          ruleMatchType := ErrorMatchTypeExact |}.
  split; [left|]; reflexivity.
Defined.

(** [TestErrorMatcher_ShouldIgnoreError_WildcardMatch]; and a helper that
    reports an error on every expression. *)
Lemma matchString_wildcard_witness :
  let target := "transaction is underpriced" in
  let pattern := "transaction*underpriced" in
  let failing (_ _ : string) :=
    (true, Some (errorString "invalid wildcard expression")) in
  target <> "" /\ pattern <> ""
  /\ glob pattern target
  /\ matchString (RE := MiniRegexp.package) failing target pattern
       ErrorMatchTypeWildcard = false.
Proof.
  intros target pattern failing.
  assert (Ht : target <> "") by discriminate.
  assert (Hp : pattern <> "") by discriminate.
  pose proof (matchString_wildcard (RE := MiniRegexp.package)
                target pattern Ht Hp) as (Hany & Hglob & _).
  split; [exact Ht|]. split; [exact Hp|]. split.
  - apply Hglob. reflexivity.
  - destruct (Hany failing) as (_ & Hfail).
    rewrite (proj1 (Hfail ltac:(discriminate))). reflexivity.
Defined.

(** [TestErrorMatcher_InvalidRegex] and
    [TestErrorMatcher_ShouldIgnoreError_RegexMatch]. *)
Lemma matchString_regex_witness :
  let target := "this contains [invalid(regex pattern" in
  let pattern := "[invalid(regex" in
  reports_any_match MiniRegexp.package
    (fun re _ mid _ => MiniRegexp.matches re mid)
  /\ target <> "" /\ pattern <> ""
  /\ MiniRegexp.compile pattern = None
  /\ run_matchString target pattern ErrorMatchTypeRegex = true
  /\ run_matchString "transaction is underpriced" "transaction.+underpriced"
       ErrorMatchTypeRegex = true.
Proof.
  intros target pattern.
  assert (Ht : target <> "") by discriminate.
  assert (Hp : pattern <> "") by discriminate.
  pose proof (matchString_regex (RE := MiniRegexp.package) _ WildcardMatch
                target pattern search_reports_any_match Ht Hp)
    as (_ & _ & Hinvalid).
  split; [exact search_reports_any_match|].
  split; [exact Ht|]. split; [exact Hp|]. split; [reflexivity|]. split.
  - apply (Hinvalid eq_refl "this contains " " pattern").
  - pose proof (matchString_regex (RE := MiniRegexp.package) _ WildcardMatch
                  "transaction is underpriced" "transaction.+underpriced"
                  search_reports_any_match ltac:(discriminate)
                  ltac:(discriminate)) as (Hcompiled & _).
    destruct (MiniRegexp.compile "transaction.+underpriced") as [re|] eqn:Hre;
      [|discriminate].
    apply (Hcompiled re Hre).
    exists "", "transaction is underpriced", "". split; [reflexivity|].
    apply MiniRegexpFacts.fullMatch_matches.
    vm_compute in Hre. injection Hre as <-. reflexivity.
Defined.

(** [TestMergePatterns]. *)
Lemma MergePatterns_union_witness :
  let message (text : string) :=
    Some [ {| ruleCode := ""; ruleMessage := text; ruleMatchType := "" |} ] in
  let projectPatterns := message "project error" in
  let networkPatterns := message "network error" in
  let upstreamPatterns := message "upstream error" in
  let err := Some (errorString "network error") in
  run_ShouldIgnoreError
    (Some (MergePatterns projectPatterns networkPatterns upstreamPatterns)) err
  = true
  /\ run_ShouldIgnoreError
       (Some (MergePatterns upstreamPatterns projectPatterns networkPatterns))
       err
     = true.
Proof.
  intros message projectPatterns networkPatterns upstreamPatterns err.
  pose proof (MergePatterns_union (RE := MiniRegexp.package) WildcardMatch projectPatterns networkPatterns
                upstreamPatterns err) as (_ & Hunion & Horder).
  assert (H : run_ShouldIgnoreError
    (Some (MergePatterns projectPatterns networkPatterns upstreamPatterns)) err
    = true).
  { apply (Hunion (errorString "network error") eq_refl).
    exists {| ruleCode := ""; ruleMessage := "network error";
              ruleMatchType := "" |}.
    split; [right; left; left|]; reflexivity. }
  split; [exact H|].
  unfold run_ShouldIgnoreError. rewrite Horder; [exact H|].
  apply (Permutation_cons_app [_; _] []). reflexivity.
Defined.

(** [TestIgnoreErrors_EndToEnd_ErrorMatcher]: the six cases, in order.  The
    structured error is given a text of its own choosing; only its code is
    matched. *)
Example end_to_end_ErrorMatcher :
  let message (text : string) (mt : ErrorMatchType) :=
    {| ruleCode := ""; ruleMessage := text; ruleMatchType := mt |} in
  let matcher := Some (NewErrorMatcher (Some
    [ message "transaction underpriced" ErrorMatchTypeSubstring;
      message "nonce too low" ErrorMatchTypeSubstring;
      {| ruleCode := "ErrEndpointCapacityExceeded"; ruleMessage := "";
         ruleMatchType := ErrorMatchTypeExact |};
      message "transaction*is*underpriced" ErrorMatchTypeWildcard;
      message "nonce (is )?too low" ErrorMatchTypeRegex ])) in
  map (run_ShouldIgnoreError matcher)
    [ Some (errorString "transaction underpriced");
      Some (errorString "nonce too low");
      Some (standardError "rate limit exceeded"
              (Some {| Code := "ErrEndpointCapacityExceeded";
                       Message := "rate limit exceeded" |}));
      Some (errorString "transaction is underpriced");
      Some (errorString "nonce is too low");
      Some (errorString "insufficient funds") ]
  = [true; true; true; true; true; false].
Proof. reflexivity. Qed.

(** * Further properties of the matcher *)

(** ** More on strings *)

Lemma append_empty_r (s : string) : s ++ "" = s.
Proof. induction s as [|c s IH]; simpl; [reflexivity | now rewrite IH]. Qed.

Lemma append_assoc (a b c : string) : (a ++ b) ++ c = a ++ b ++ c.
Proof. induction a as [|x a IH]; simpl; [reflexivity | now rewrite IH]. Qed.

Lemma Contains_refl (s : string) : strings.Contains s s = true.
Proof. apply Contains_spec. exists "", "". simpl. now rewrite append_empty_r. Qed.

Lemma Contains_length (s p : string) :
  strings.Contains s p = true -> String.length p <= String.length s.
Proof.
  intros H. apply Contains_spec in H as (pre & post & ->).
  rewrite !length_append. lia.
Qed.

(** Containment passes to a surrounding text. *)
Lemma Contains_inside (s p pre post : string) :
  strings.Contains s p = true ->
  strings.Contains (pre ++ s ++ post) p = true.
Proof.
  intros H. apply Contains_spec in H as (a & b & ->). apply Contains_spec.
  exists (pre ++ a), (b ++ post). now rewrite !append_assoc.
Qed.

Lemma Contains_trans (s q p : string) :
  strings.Contains s q = true -> strings.Contains q p = true ->
  strings.Contains s p = true.
Proof.
  intros Hs Hq. apply Contains_spec in Hs as (pre & post & ->).
  now apply Contains_inside.
Qed.

Lemma append_nonempty_r (a b : string) : b <> "" -> a ++ b <> "".
Proof. intros Hb H. destruct a; [now simpl in H | discriminate]. Qed.

Lemma elems_append {A : Type} (s t : slice A) :
  elems (Go.append s t) = (elems s ++ elems t)%list.
Proof. destruct s, t; reflexivity. Qed.

Lemma elems_NewErrorMatcher (s : slice IgnoreErrorConfig) :
  elems (patterns (NewErrorMatcher s)) = elems s.
Proof. now destruct s. Qed.

Lemma ErrorMatcher_ext (m1 m2 : ErrorMatcher) :
  patterns m1 = patterns m2 -> m1 = m2.
Proof. destruct m1, m2. simpl. now intros ->. Qed.

Section MatcherFacts.

Context {RE : RegexpPackage}.
Variable W : string -> string -> bool * option error.

(** The types that reach a [strings.Contains] call whatever the pattern:
    [substring], the empty type and every unrecognised one. *)
Lemma matchString_as_contains (target pattern : string) (mt : ErrorMatchType) :
  mt <> ErrorMatchTypeExact -> mt <> ErrorMatchTypeWildcard ->
  mt <> ErrorMatchTypeRegex ->
  matchString W target pattern mt
  = negb (target =? "") && negb (pattern =? "")
    && strings.Contains target pattern.
Proof.
  intros He Hw Hr. rewrite (matchString_default W _ _ mt He Hw Hr).
  destruct (String.eqb_spec target "") as [->|Ht].
  - now rewrite matchString_empty_target.
  - destruct (String.eqb_spec pattern "") as [->|Hp].
    + now rewrite matchString_empty_pattern.
    + now rewrite (matchString_as_substring W _ _ Ht Hp).
Qed.

Lemma matchString_exact_eq (target pattern : string) :
  matchString W target pattern ErrorMatchTypeExact = true ->
  target = pattern /\ pattern <> "".
Proof.
  intros H.
  destruct (String.eqb_spec target "") as [->|Ht];
    [now rewrite matchString_empty_target in H|].
  destruct (String.eqb_spec pattern "") as [->|Hp];
    [now rewrite matchString_empty_pattern in H|].
  rewrite (matchString_as_exact W _ _ Ht Hp) in H.
  apply String.eqb_eq in H. auto.
Qed.

Lemma ShouldIgnoreError_existsb (m : ErrorMatcher) (e : error) :
  ShouldIgnoreError W (Some m) (Some e)
  = existsb (matchesPattern W (Error e) (extractCode e)) (elems (patterns m)).
Proof. now rewrite ShouldIgnoreError_loop, anyPattern_existsb. Qed.

Lemma ShouldIgnoreError_by_rule (m : ErrorMatcher) (e : error)
    (rule : IgnoreErrorConfig) :
  In rule (elems (patterns m)) ->
  matchesPattern W (Error e) (extractCode e) rule = true ->
  ShouldIgnoreError W (Some m) (Some e) = true.
Proof.
  intros Hin Hm. rewrite ShouldIgnoreError_existsb. apply existsb_exists.
  now exists rule.
Qed.

End MatcherFacts.

(** ** Rules, matchers and tiers *)

Section RuleSets.

Context {RE : RegexpPackage}.
Variable W : string -> string -> bool * option error.

(** X1. The verdict follows the set of rules: a matcher that holds every
    rule of another ignores every error the other ignores, and two matchers
    holding the same rules, in whatever order and however often, give the
    same verdict on every error. *)
Theorem verdict_follows_rule_set (m1 m2 : ErrorMatcher) (err : option error) :
  (forall rule, In rule (elems (patterns m1)) -> In rule (elems (patterns m2))) ->
  (ShouldIgnoreError W (Some m1) err = true ->
   ShouldIgnoreError W (Some m2) err = true)
  /\ ((forall rule,
         In rule (elems (patterns m2)) -> In rule (elems (patterns m1))) ->
      ShouldIgnoreError W (Some m1) err = ShouldIgnoreError W (Some m2) err).
Proof.
  intros H12. destruct err as [e|]; [|split; [discriminate | reflexivity]].
  assert (Hincl : forall a b : ErrorMatcher,
    (forall rule, In rule (elems (patterns a)) -> In rule (elems (patterns b))) ->
    ShouldIgnoreError W (Some a) (Some e) = true ->
    ShouldIgnoreError W (Some b) (Some e) = true).
  { intros a b Hab. rewrite !ShouldIgnoreError_existsb, !existsb_exists.
    intros (rule & Hin & Hm). exists rule. auto. }
  split; [now apply Hincl|].
  intros H21. apply eq_true_iff_eq. split; now apply Hincl.
Qed.

(** X2. A matcher over two rule slices appended ignores an error exactly
    when the matcher over one of them does. *)
Theorem matcher_of_appended_rules (a b : slice IgnoreErrorConfig)
    (err : option error) :
  ShouldIgnoreError W (Some (NewErrorMatcher (Go.append a b))) err
  = ShouldIgnoreError W (Some (NewErrorMatcher a)) err
    || ShouldIgnoreError W (Some (NewErrorMatcher b)) err.
Proof.
  destruct err as [e|]; [|reflexivity].
  rewrite !ShouldIgnoreError_existsb, !elems_NewErrorMatcher, elems_append.
  apply existsb_app.
Qed.

(** X3. Merging a single tier builds the matcher of that tier, nil or not;
    merging is flat, the rules of a partial merge handed over as one tier
    giving the three-way merge; and the merged matcher holds as many rules
    as the three tiers together. *)
Theorem MergePatterns_single_tier_and_nesting
    (p n u : slice IgnoreErrorConfig) :
  MergePatterns p None None = NewErrorMatcher p
  /\ MergePatterns None n None = NewErrorMatcher n
  /\ MergePatterns None None u = NewErrorMatcher u
  /\ MergePatterns (patterns (MergePatterns p n None)) None u
     = MergePatterns p n u
  /\ MergePatterns p (patterns (MergePatterns None n u)) None
     = MergePatterns p n u
  /\ len (patterns (MergePatterns p n u)) = len u + len n + len p.
Proof.
  repeat split.
  - destruct p; unfold MergePatterns; simpl; reflexivity.
  - destruct n; unfold MergePatterns; simpl; rewrite ?app_nil_r; reflexivity.
  - destruct u; unfold MergePatterns; simpl; rewrite ?app_nil_r; reflexivity.
  - apply ErrorMatcher_ext. rewrite !MergePatterns_patterns. reflexivity.
  - apply ErrorMatcher_ext. rewrite !MergePatterns_patterns. simpl.
    now rewrite !app_nil_r, <- !app_assoc.
  - rewrite MergePatterns_patterns. unfold len. simpl.
    rewrite !length_app. lia.
Qed.

(** X4. A rule with one pattern looks at one field: with a code pattern
    alone its verdict is that of the code, whatever the message, and with a
    message pattern alone that of the message, whatever the code.  So a
    matcher holding a code-only rule ignores every structured error whose
    code the rule matches, whatever the error's text. *)
Theorem single_pattern_rule (text : string) (mt : ErrorMatchType)
    (errMsg errCode : string) :
  matchesPattern W errMsg errCode
    {| ruleCode := text; ruleMessage := ""; ruleMatchType := mt |}
  = matchString W errCode text mt
  /\ matchesPattern W errMsg errCode
       {| ruleCode := ""; ruleMessage := text; ruleMatchType := mt |}
     = matchString W errMsg text mt
  /\ (forall (m : ErrorMatcher) (rendered : string) (base : BaseError),
      In {| ruleCode := text; ruleMessage := ""; ruleMatchType := mt |}
        (elems (patterns m)) ->
      matchString W (Code base) text mt = true ->
      ShouldIgnoreError W (Some m) (Some (standardError rendered (Some base)))
      = true).
Proof.
  assert (Hcode : forall msg code,
    matchesPattern W msg code
      {| ruleCode := text; ruleMessage := ""; ruleMatchType := mt |}
    = matchString W code text mt).
  { intros msg code. rewrite matchesPattern_formula. simpl.
    destruct (String.eqb_spec text "") as [->|_]; simpl.
    - now rewrite matchString_empty_pattern.
    - now rewrite !andb_true_r. }
  split; [apply Hcode|]. split.
  - rewrite matchesPattern_formula. simpl.
    destruct (String.eqb_spec text "") as [->|_]; simpl.
    + now rewrite matchString_empty_pattern.
    + now rewrite !andb_true_r.
  - intros m rendered base Hin Hm.
    apply (ShouldIgnoreError_by_rule W _ _ _ Hin). rewrite Hcode.
    unfold extractCode. simpl.
    destruct (String.eqb_spec (Code base) "") as [E|_]; simpl; [|exact Hm].
    rewrite E in Hm. now rewrite matchString_empty_target in Hm.
Qed.

(** X10. Rules whose two patterns are both empty are inert: dropping them
    from a matcher changes no verdict. *)
Theorem empty_rules_are_inert (rules : list IgnoreErrorConfig)
    (err : option error) :
  ShouldIgnoreError W (Some (NewErrorMatcher (Some rules))) err
  = ShouldIgnoreError W
      (Some (NewErrorMatcher (Some
         (filter (fun rule =>
                    negb ((ruleCode rule =? "") && (ruleMessage rule =? "")))
            rules)))) err.
Proof.
  destruct err as [e|]; [|reflexivity].
  rewrite !ShouldIgnoreError_existsb. simpl.
  induction rules as [|rule rules IH]; simpl; [reflexivity|].
  rewrite IH.
  destruct (negb ((ruleCode rule =? "") && (ruleMessage rule =? ""))) eqn:E;
    [reflexivity|].
  rewrite matchesPattern_formula, E, andb_false_r. reflexivity.
Qed.

(** X11. An error with an empty text that exposes no code is ignored by no
    matcher. *)
Theorem empty_error_never_ignored (m : option ErrorMatcher) (e : error) :
  Error e = "" -> extractCode e = "" ->
  ShouldIgnoreError W m (Some e) = false.
Proof.
  intros Ht Hc. destruct m as [m|]; [|reflexivity].
  rewrite ShouldIgnoreError_existsb, Ht, Hc.
  apply not_true_is_false. rewrite existsb_exists.
  intros (rule & _ & H). rewrite matchesPattern_formula in H.
  rewrite !matchString_empty_target, !orb_false_r in H.
  now destruct (ruleCode rule =? ""), (ruleMessage rule =? "").
Qed.

End RuleSets.

(** ** Match types, patterns and wrapped errors *)

Section MatchTypes.

Context {RE : RegexpPackage}.
Variable W : string -> string -> bool * option error.

(** X5. Loosening a rule from [exact] to [substring], to the empty type or
    to an unrecognised one loses no match. *)
Theorem exact_match_survives_loosening (code message : string)
    (mt : ErrorMatchType) (errMsg errCode : string) :
  mt <> ErrorMatchTypeExact -> mt <> ErrorMatchTypeWildcard ->
  mt <> ErrorMatchTypeRegex ->
  matchesPattern W errMsg errCode
    {| ruleCode := code; ruleMessage := message;
       ruleMatchType := ErrorMatchTypeExact |} = true ->
  matchesPattern W errMsg errCode
    {| ruleCode := code; ruleMessage := message; ruleMatchType := mt |} = true.
Proof.
  intros He Hw Hr. rewrite !matchesPattern_formula. simpl.
  assert (Hloose : forall target pattern,
    (pattern =? "") || matchString W target pattern ErrorMatchTypeExact = true ->
    (pattern =? "") || matchString W target pattern mt = true).
  { intros target pattern H. apply orb_true_iff in H as [H|H].
    - now rewrite H.
    - apply matchString_exact_eq in H as [-> Hp].
      rewrite (matchString_as_contains W _ _ mt He Hw Hr).
      rewrite (eqb_empty_false _ Hp), Contains_refl. reflexivity. }
  intros H. apply andb_true_iff in H as [H Hne].
  apply andb_true_iff in H as [Hc Hm].
  now rewrite (Hloose _ _ Hc), (Hloose _ _ Hm), Hne.
Qed.

(** X6. A message-only rule that matches by containment survives wrapping:
    when such a rule of the matcher matches an error, the matcher ignores
    every error whose text contains that error's text, the result of
    [fmt.Errorf] with a prefix and [%w] among them. *)
Theorem substring_rule_survives_wrapping (m : ErrorMatcher)
    (rule : IgnoreErrorConfig) (e : error) :
  In rule (elems (patterns m)) ->
  ruleCode rule = "" ->
  ruleMatchType rule <> ErrorMatchTypeExact ->
  ruleMatchType rule <> ErrorMatchTypeWildcard ->
  ruleMatchType rule <> ErrorMatchTypeRegex ->
  matchesPattern W (Error e) (extractCode e) rule = true ->
  (forall (outer : error) (pre post : string),
      Error outer = pre ++ Error e ++ post ->
      ShouldIgnoreError W (Some m) (Some outer) = true)
  /\ (forall prefix : string,
      ShouldIgnoreError W (Some m) (Some (Errorf_w prefix e)) = true).
Proof.
  intros Hin Hcode He Hw Hr Hm.
  rewrite matchesPattern_formula, Hcode in Hm. simpl in Hm.
  destruct (ruleMessage rule =? "") eqn:Hmsg; [discriminate|]. simpl in Hm.
  rewrite andb_true_r, (matchString_as_contains W _ _ _ He Hw Hr), Hmsg in Hm.
  simpl in Hm. rewrite andb_true_r in Hm.
  apply andb_true_iff in Hm as [Hne Hc].
  apply negb_true_iff, String.eqb_neq in Hne.
  assert (Houter : forall (outer : error) (pre post : string),
            Error outer = pre ++ Error e ++ post ->
            ShouldIgnoreError W (Some m) (Some outer) = true).
  { intros outer pre post Htext.
    apply (ShouldIgnoreError_by_rule W _ _ _ Hin).
    rewrite matchesPattern_formula, Hcode, Hmsg. simpl.
    rewrite andb_true_r, (matchString_as_contains W _ _ _ He Hw Hr), Hmsg.
    rewrite Htext, (Contains_inside _ _ pre post Hc). simpl.
    rewrite !andb_true_r. apply negb_true_iff, eqb_empty_false.
    apply append_nonempty_r. intros E.
    destruct (Error e); [now apply Hne | discriminate]. }
  split; [exact Houter|].
  intros prefix. apply (Houter _ prefix ""). simpl.
  now rewrite append_empty_r.
Qed.

(** X7. No [exact] rule matches both an error and that error wrapped behind
    a non-empty prefix. *)
Theorem exact_rule_lost_on_wrapping (rule : IgnoreErrorConfig) (e : error)
    (prefix : string) :
  ruleMatchType rule = ErrorMatchTypeExact -> prefix <> "" ->
  matchesPattern W (Error e) (extractCode e) rule = true ->
  matchesPattern W (Error (Errorf_w prefix e))
    (extractCode (Errorf_w prefix e)) rule = false.
Proof.
  intros Hmt Hprefix Hm. rewrite matchesPattern_formula in *.
  rewrite Hmt in *. simpl.
  destruct (String.eqb_spec (ruleCode rule) "") as [Hc|Hc]; simpl in *.
  - destruct (String.eqb_spec (ruleMessage rule) "") as [Hmsg|Hmsg];
      simpl in *; [discriminate|].
    rewrite andb_true_r in Hm. apply matchString_exact_eq in Hm as [Htext _].
    rewrite andb_true_r. apply not_true_is_false. intros H.
    apply matchString_exact_eq in H as [H _]. rewrite <- Htext in H.
    apply (f_equal String.length) in H. rewrite length_append in H.
    destruct prefix; [now apply Hprefix | simpl in H; lia].
  - reflexivity.
Qed.

(** X8. Under [substring], the empty type and the unrecognised ones, a
    pattern that occurs within another matches every target the other
    matches. *)
Theorem narrower_pattern_matches_more (target p q : string)
    (mt : ErrorMatchType) :
  mt <> ErrorMatchTypeExact -> mt <> ErrorMatchTypeWildcard ->
  mt <> ErrorMatchTypeRegex ->
  p <> "" -> strings.Contains q p = true ->
  matchString W target q mt = true -> matchString W target p mt = true.
Proof.
  intros He Hw Hr Hp Hqp. rewrite !(matchString_as_contains W _ _ mt He Hw Hr).
  intros H. apply andb_true_iff in H as [H Hc].
  apply andb_true_iff in H as [Ht _].
  now rewrite Ht, (eqb_empty_false _ Hp), (Contains_trans _ _ _ Hc Hqp).
Qed.

(** X9. Outside [wildcard] and [regex], a pattern longer than the target
    never matches, and under [exact] neither does one of another length. *)
Theorem pattern_length_bounds (target pattern : string) (mt : ErrorMatchType) :
  mt <> ErrorMatchTypeWildcard -> mt <> ErrorMatchTypeRegex ->
  (String.length target < String.length pattern ->
   matchString W target pattern mt = false)
  /\ (String.length target <> String.length pattern ->
      matchString W target pattern ErrorMatchTypeExact = false).
Proof.
  intros Hw Hr.
  assert (Hexact : String.length target <> String.length pattern ->
                   matchString W target pattern ErrorMatchTypeExact = false).
  { intros Hlen. apply not_true_is_false. intros H.
    apply matchString_exact_eq in H as [-> _]. now apply Hlen. }
  split; [|exact Hexact].
  intros Hlen. destruct (String.eqb_spec mt ErrorMatchTypeExact) as [->|He].
  - apply Hexact. lia.
  - rewrite (matchString_as_contains W _ _ mt He Hw Hr).
    apply not_true_is_false. intros H. apply andb_true_iff in H as [_ H].
    apply Contains_length in H. lia.
Qed.

End MatchTypes.

(** ** The further properties at concrete inputs *)

(** Two rules of [TestErrorMatcher_ShouldIgnoreError_SubstringMatch],
    reordered and one of them repeated. *)
Lemma verdict_follows_rule_set_witness :
  let r1 := {| ruleCode := ""; ruleMessage := "transaction underpriced";
               ruleMatchType := ErrorMatchTypeSubstring |} in
  let r2 := {| ruleCode := ""; ruleMessage := "nonce too low";
               ruleMatchType := "" |} in
  let m1 := NewErrorMatcher (Some [r1; r2]) in
  let m2 := NewErrorMatcher (Some [r2; r1; r2]) in
  let err := Some (errorString "the nonce too low for this tx") in
  (forall rule, In rule (elems (patterns m1)) -> In rule (elems (patterns m2)))
  /\ (forall rule, In rule (elems (patterns m2)) -> In rule (elems (patterns m1)))
  /\ run_ShouldIgnoreError (Some m2) err = true
  /\ run_ShouldIgnoreError (Some m1) err = run_ShouldIgnoreError (Some m2) err.
Proof.
  intros r1 r2 m1 m2 err.
  assert (H12 : forall rule,
            In rule (elems (patterns m1)) -> In rule (elems (patterns m2))).
  { simpl. intuition. }
  assert (H21 : forall rule,
            In rule (elems (patterns m2)) -> In rule (elems (patterns m1))).
  { simpl. intuition. }
  pose proof (verdict_follows_rule_set (RE := MiniRegexp.package) WildcardMatch
                m1 m2 err H12) as (Hmono & Hsame).
  split; [exact H12|]. split; [exact H21|]. split.
  - apply Hmono. reflexivity.
  - apply Hsame. exact H21.
Defined.

(** [TestUpstream_IgnoreErrors_CodeMatch]: the code decides, not the text. *)
Lemma single_pattern_rule_witness :
  let rule := {| ruleCode := "ErrEndpointCapacityExceeded"; ruleMessage := "";
                 ruleMatchType := ErrorMatchTypeExact |} in
  let m := NewErrorMatcher (Some [rule]) in
  let base := {| Code := "ErrEndpointCapacityExceeded";
                 Message := "capacity exceeded" |} in
  run_ShouldIgnoreError (Some m)
    (Some (standardError "capacity exceeded" (Some base))) = true
  /\ run_ShouldIgnoreError (Some m)
       (Some (standardError "something else entirely" (Some base))) = true.
Proof.
  intros rule m base.
  pose proof (single_pattern_rule (RE := MiniRegexp.package) WildcardMatch
                "ErrEndpointCapacityExceeded" ErrorMatchTypeExact "" "")
    as (_ & _ & Hany).
  split; apply (Hany m _ base); try (left; reflexivity); reflexivity.
Defined.

(** The exact rule of [TestErrorMatcher_ShouldIgnoreError_ExactMatch], turned
    into a substring rule. *)
Lemma exact_match_survives_loosening_witness :
  let mt := ErrorMatchTypeSubstring in
  mt <> ErrorMatchTypeExact /\ mt <> ErrorMatchTypeWildcard
  /\ mt <> ErrorMatchTypeRegex
  /\ run_matchesPattern "transaction underpriced" ""
       {| ruleCode := ""; ruleMessage := "transaction underpriced";
          ruleMatchType := ErrorMatchTypeExact |} = true
  /\ run_matchesPattern "transaction underpriced" ""
       {| ruleCode := ""; ruleMessage := "transaction underpriced";
          ruleMatchType := mt |} = true.
Proof.
  intros mt.
  assert (He : mt <> ErrorMatchTypeExact) by discriminate.
  assert (Hw : mt <> ErrorMatchTypeWildcard) by discriminate.
  assert (Hr : mt <> ErrorMatchTypeRegex) by discriminate.
  split; [exact He|]. split; [exact Hw|]. split; [exact Hr|].
  split; [reflexivity|].
  apply (exact_match_survives_loosening (RE := MiniRegexp.package)
           WildcardMatch "" "transaction underpriced" mt
           "transaction underpriced" "" He Hw Hr).
  reflexivity.
Defined.

(** A message rule of [TestMergePatterns] and the wrapping of
    [TestErrorMatcher_NestedStandardError]. *)
Lemma substring_rule_survives_wrapping_witness :
  let rule := {| ruleCode := ""; ruleMessage := "upstream error";
                 ruleMatchType := "" |} in
  let m := NewErrorMatcher (Some [rule]) in
  let e := errorString "upstream error" in
  In rule (elems (patterns m))
  /\ ruleCode rule = ""
  /\ ruleMatchType rule <> ErrorMatchTypeExact
  /\ ruleMatchType rule <> ErrorMatchTypeWildcard
  /\ ruleMatchType rule <> ErrorMatchTypeRegex
  /\ run_matchesPattern (Error e) (extractCode e) rule = true
  /\ run_ShouldIgnoreError (Some m) (Some (Errorf_w "wrapped: " e)) = true.
Proof.
  intros rule m e.
  assert (Hin : In rule (elems (patterns m))) by (left; reflexivity).
  assert (He : ruleMatchType rule <> ErrorMatchTypeExact) by discriminate.
  assert (Hw : ruleMatchType rule <> ErrorMatchTypeWildcard) by discriminate.
  assert (Hr : ruleMatchType rule <> ErrorMatchTypeRegex) by discriminate.
  assert (Hm : run_matchesPattern (Error e) (extractCode e) rule = true)
    by reflexivity.
  pose proof (substring_rule_survives_wrapping (RE := MiniRegexp.package)
                WildcardMatch m rule e Hin eq_refl He Hw Hr Hm)
    as (_ & Hwrapped).
  split; [exact Hin|]. split; [reflexivity|]. split; [exact He|].
  split; [exact Hw|]. split; [exact Hr|]. split; [exact Hm|].
  apply Hwrapped.
Defined.

(** The exact rule of [TestErrorMatcher_ShouldIgnoreError_ExactMatch] and an
    error wrapped behind a prefix. *)
Lemma exact_rule_lost_on_wrapping_witness :
  let rule := {| ruleCode := ""; ruleMessage := "transaction underpriced";
                 ruleMatchType := ErrorMatchTypeExact |} in
  let e := errorString "transaction underpriced" in
  let wrapped := Errorf_w "wrapped: " e in
  ruleMatchType rule = ErrorMatchTypeExact /\ "wrapped: " <> ""
  /\ run_matchesPattern (Error e) (extractCode e) rule = true
  /\ run_matchesPattern (Error wrapped) (extractCode wrapped) rule = false.
Proof.
  intros rule e wrapped.
  assert (Hp : "wrapped: " <> "") by discriminate.
  assert (Hm : run_matchesPattern (Error e) (extractCode e) rule = true)
    by reflexivity.
  split; [reflexivity|]. split; [exact Hp|]. split; [exact Hm|].
  apply (exact_rule_lost_on_wrapping (RE := MiniRegexp.package) WildcardMatch
           rule e "wrapped: " eq_refl Hp Hm).
Defined.

(** Two patterns of the tests, one within the other. *)
Lemma narrower_pattern_matches_more_witness :
  let target := "Error: transaction underpriced" in
  let q := "transaction underpriced" in
  let p := "underpriced" in
  let mt := ErrorMatchTypeSubstring in
  mt <> ErrorMatchTypeExact /\ mt <> ErrorMatchTypeWildcard
  /\ mt <> ErrorMatchTypeRegex /\ p <> ""
  /\ strings.Contains q p = true
  /\ run_matchString target q mt = true
  /\ run_matchString target p mt = true.
Proof.
  intros target q p mt.
  assert (He : mt <> ErrorMatchTypeExact) by discriminate.
  assert (Hw : mt <> ErrorMatchTypeWildcard) by discriminate.
  assert (Hr : mt <> ErrorMatchTypeRegex) by discriminate.
  assert (Hp : p <> "") by discriminate.
  assert (Hqp : strings.Contains q p = true) by reflexivity.
  assert (Hq : run_matchString target q mt = true) by reflexivity.
  split; [exact He|]. split; [exact Hw|]. split; [exact Hr|].
  split; [exact Hp|]. split; [exact Hqp|]. split; [exact Hq|].
  apply (narrower_pattern_matches_more (RE := MiniRegexp.package)
           WildcardMatch target p q mt He Hw Hr Hp Hqp Hq).
Defined.

(** A pattern of the tests against a shorter text. *)
Lemma pattern_length_bounds_witness :
  let target := "nonce" in
  let pattern := "nonce too low" in
  let mt := "" in
  mt <> ErrorMatchTypeWildcard /\ mt <> ErrorMatchTypeRegex
  /\ String.length target < String.length pattern
  /\ run_matchString target pattern mt = false
  /\ run_matchString target pattern ErrorMatchTypeExact = false.
Proof.
  intros target pattern mt.
  assert (Hw : mt <> ErrorMatchTypeWildcard) by discriminate.
  assert (Hr : mt <> ErrorMatchTypeRegex) by discriminate.
  assert (Hlt : String.length target < String.length pattern)
    by (vm_compute; repeat constructor).
  pose proof (pattern_length_bounds (RE := MiniRegexp.package) WildcardMatch
                target pattern mt Hw Hr) as (Hlong & Hexact).
  split; [exact Hw|]. split; [exact Hr|]. split; [exact Hlt|]. split.
  - apply Hlong. exact Hlt.
  - apply Hexact. discriminate.
Defined.

(** [errors.New] of the empty text, and a structured error with no base. *)
Lemma empty_error_never_ignored_witness :
  let m := Some (NewErrorMatcher (Some
    [ {| ruleCode := ""; ruleMessage := "nonce too low";
         ruleMatchType := "" |};
      {| ruleCode := "Err*"; ruleMessage := "";
         ruleMatchType := ErrorMatchTypeWildcard |} ])) in
  Error (errorString "") = "" /\ extractCode (errorString "") = ""
  /\ run_ShouldIgnoreError m (Some (errorString "")) = false
  /\ run_ShouldIgnoreError m (Some (standardError "" None)) = false.
Proof.
  intros m. split; [reflexivity|]. split; [reflexivity|]. split.
  - apply (empty_error_never_ignored (RE := MiniRegexp.package) WildcardMatch
             m (errorString "") eq_refl eq_refl).
  - apply (empty_error_never_ignored (RE := MiniRegexp.package) WildcardMatch
             m (standardError "" None) eq_refl eq_refl).
Defined.
